(** * AuthContext.jsx: the authentication provider of the front end

    A shallow embedding of [src/frontend/src/contexts/AuthContext.jsx]:
    the [AuthProvider] component with its [user] state, the mount effect,
    [fetchUserData], [logout], [login] and [register].

    JavaScript values are a small inductive type, [localStorage] is a finite
    map from strings to strings, and every [async] function is a program of
    a free monad whose suspension points are the [await]s of the source.
    Programs are run either to completion against a backend (one call at a
    time), or interleaved in a pool of suspended calls (the event loop). *)

From stdpp Require Import gmap strings list pretty.

Open Scope string_scope.
Open Scope list_scope.

(** ** JavaScript values *)

(** The values the provider handles: what [JSON.parse] produces, plus
    [undefined].  JSON numbers are kept as integers. *)
#[warnings="-register-all"]
Inductive value : Type :=
| VUndef
| VNull
| VBool (b : bool)
| VNum (n : Z)
| VStr (s : string)
| VArr (items : list value)
| VObj (fields : list (string * value)).

(** [Array.prototype.join(",")]: [null] and [undefined] print as nothing. *)
Definition join_items (to_s : value → string) : list value → string :=
  fix go (l : list value) : string :=
    match l with
    | [] => ""
    | [x] => match x with VUndef | VNull => "" | _ => to_s x end
    | x :: rest =>
        (match x with VUndef | VNull => "" | _ => to_s x end) +:+ "," +:+ go rest
    end.

(** The [ToString] conversion, applied by template literals, by
    [localStorage.setItem] to its value and by [new Error] to its message. *)
Fixpoint to_string (v : value) : string :=
  match v with
  | VUndef => "undefined"
  | VNull => "null"
  | VBool true => "true"
  | VBool false => "false"
  | VNum n => pretty n
  | VStr s => s
  | VArr items => join_items to_string items
  | VObj _ => "[object Object]"
  end.

(** Own-property lookup in a parsed JSON object. *)
Fixpoint assoc (key : string) (fields : list (string * value)) : option value :=
  match fields with
  | [] => None
  | (k, v) :: rest => if String.eqb k key then Some v else assoc key rest
  end.

(** Thrown values.  Everything thrown in this file is an [Error] instance
    (built by [new Error], by the engine, or by [fetch] and [res.json] when
    they reject); the handlers only read [error.message]. *)
Record exn : Type := Exn { exn_name : string; exn_message : string }.

(** [new Error(message)]: an undefined message leaves the inherited empty
    message, anything else is converted to a string. *)
Definition new_Error (message : value) : exn :=
  Exn "Error" (match message with VUndef => "" | m => to_string m end).

(** The engine's error for reading a property of [null] or [undefined]. *)
Definition TypeError_read (v : value) (key : string) : exn :=
  Exn "TypeError"
      ("Cannot read properties of " +:+ to_string v +:+
       " (reading '" +:+ key +:+ "')").

(** The member access [v.key], for the keys the provider reads ([token],
    [user], [message]): none of them is a property of a primitive or of an
    array, so only objects answer; [null] and [undefined] throw. *)
Definition get_member (v : value) (key : string) : exn + value :=
  match v with
  | VUndef | VNull => inl (TypeError_read v key)
  | VObj fields => inr (default VUndef (assoc key fields))
  | _ => inr VUndef
  end.

(** Truthiness of what [localStorage.getItem] returns: [null] (no entry) and
    the empty string are falsy. *)
Definition truthy_item (item : option string) : bool :=
  match item with
  | None => false
  | Some s => negb (String.eqb s "")
  end.

(** ** The network *)

Record request : Type := Request {
  req_url : string;
  req_method : string;
  req_headers : list (string * string);
  (** the value handed to [JSON.stringify], [None] when no body is sent *)
  req_body : option value
}.

(** How a promise settles. *)
Inductive settled (A : Type) : Type :=
| Fulfilled (a : A)
| Rejected (e : exn).
Arguments Fulfilled {A} a.
Arguments Rejected {A} e.

(** A [Response]: its status and what [res.json()] settles to. *)
Record response : Type := Response {
  res_status : Z;
  res_json : settled value
}.

(** [res.ok]: the status is in the range 200-299. *)
Definition res_ok (res : response) : bool :=
  (200 <=? res_status res)%Z && (res_status res <=? 299)%Z.

(** ** The state the provider acts on *)

(** Arguments of [console.error]. *)
Inductive console_arg : Type :=
| CStr (s : string)
| CExn (e : exn).

(** The effects of the provider, recorded in the order they happen. *)
Inductive event : Type :=
| EFetch (rq : request)
| ESetItem (key val : string)
| ERemoveItem (key : string)
| ESetUser (u : value)
| ENavigate (path : string)
| EConsoleError (args : list console_arg).

Record state : Type := State {
  storage : gmap string string;   (** [localStorage] *)
  user : value;                   (** the [user] state of [useState] *)
  location : string;              (** the router's current path *)
  log : list event                (** effects so far, oldest first *)
}.

Definition record (e : event) (s : state) : state :=
  State (storage s) (user s) (location s) (log s ++ [e]).

(** The synchronous effects. *)
Inductive action : Type :=
| SetItem (key val : string)
| RemoveItem (key : string)
| SetUser (u : value)
| Navigate (path : string)
| ConsoleError (args : list console_arg).

Definition event_of (a : action) : event :=
  match a with
  | SetItem k v => ESetItem k v
  | RemoveItem k => ERemoveItem k
  | SetUser u => ESetUser u
  | Navigate p => ENavigate p
  | ConsoleError args => EConsoleError args
  end.

Definition perform (a : action) (s : state) : state :=
  record (event_of a)
    match a with
    | SetItem k v => State (<[k := v]> (storage s)) (user s) (location s) (log s)
    | RemoveItem k => State (delete k (storage s)) (user s) (location s) (log s)
    | SetUser u => State (storage s) u (location s) (log s)
    | Navigate p => State (storage s) (user s) p (log s)
    | ConsoleError _ => s
    end.

(** ** Programs *)

(** An [async] function body: it returns, throws, performs a synchronous
    effect, reads [localStorage], or is suspended at an [await] of [fetch]
    or of [res.json()] until the promise settles. *)
Inductive prog (A : Type) : Type :=
| Ret (a : A)
| Throw (e : exn)
| Act (a : action) (k : prog A)
| GetItem (key : string) (k : option string → prog A)
| AwaitFetch (rq : request) (k : settled response → prog A)
| AwaitJson (res : response) (k : settled value → prog A).
Arguments Ret {A} a.
Arguments Throw {A} e.
Arguments Act {A} a k.
Arguments GetItem {A} key k.
Arguments AwaitFetch {A} rq k.
Arguments AwaitJson {A} res k.

Fixpoint bind {A B : Type} (p : prog A) (f : A → prog B) : prog B :=
  match p with
  | Ret a => f a
  | Throw e => Throw e
  | Act a k => Act a (bind k f)
  | GetItem key k => GetItem key (λ item, bind (k item) f)
  | AwaitFetch rq k => AwaitFetch rq (λ o, bind (k o) f)
  | AwaitJson res k => AwaitJson res (λ o, bind (k o) f)
  end.

(** [try { p } catch (error) { handler error }] *)
Fixpoint try_catch {A : Type} (p : prog A) (handler : exn → prog A) : prog A :=
  match p with
  | Ret a => Ret a
  | Throw e => handler e
  | Act a k => Act a (try_catch k handler)
  | GetItem key k => GetItem key (λ item, try_catch (k item) handler)
  | AwaitFetch rq k => AwaitFetch rq (λ o, try_catch (k o) handler)
  | AwaitJson res k => AwaitJson res (λ o, try_catch (k o) handler)
  end.

(** Programs form a monad: sequencing is written [x ← p; q] and [p;; q]. *)
#[global] Instance prog_ret : MRet prog := @Ret.
#[global] Instance prog_bind : MBind prog := λ A B f p, bind p f.

(** Awaiting a promise: a rejection is thrown at the [await]. *)
Definition settle {A : Type} (o : settled A) : prog A :=
  match o with
  | Fulfilled a => Ret a
  | Rejected e => Throw e
  end.

Definition fetch (rq : request) : prog response := AwaitFetch rq settle.
Definition json (res : response) : prog value := AwaitJson res settle.
Definition member (v : value) (key : string) : prog value :=
  match get_member v key with
  | inl e => Throw e
  | inr x => Ret x
  end.
Definition do (a : action) : prog unit := Act a (Ret tt).
Definition getItem (key : string) : prog (option string) := GetItem key Ret.

(** How a call ends. *)
Inductive completion (A : Type) : Type :=
| Returned (a : A)
| Thrown (e : exn).
Arguments Returned {A} a.
Arguments Thrown {A} e.

(** Running one call to its end against a backend [net], which settles
    every request; nothing else runs in between. *)
Fixpoint run {A : Type} (net : request → settled response)
    (p : prog A) (s : state) : state * completion A :=
  match p with
  | Ret a => (s, Returned a)
  | Throw e => (s, Thrown e)
  | Act a k => run net k (perform a s)
  | GetItem key k => run net (k (storage s !! key)) s
  | AwaitFetch rq k => run net (k (net rq)) (record (EFetch rq) s)
  | AwaitJson res k => run net (k (res_json res)) s
  end.

(** ** The event loop *)

(** The synchronous stretch of a call: up to its end or its next [await].
    A request is sent (and recorded) when the [await] of [fetch] is reached. *)
Fixpoint advance {A : Type} (p : prog A) (s : state) : state * prog A :=
  match p with
  | Act a k => advance k (perform a s)
  | GetItem key k => advance (k (storage s !! key)) s
  | AwaitFetch rq k => (record (EFetch rq) s, p)
  | _ => (s, p)
  end.

Definition suspended {A : Type} (p : prog A) : bool :=
  match p with
  | AwaitFetch _ _ | AwaitJson _ _ => true
  | _ => false
  end.

(** The provider together with its calls that are suspended at an [await]. *)
Record system : Type := System {
  sys_state : state;
  pending : list (prog value)
}.

(** A new call runs until its first [await]. *)
Definition launch (p : prog value) (sys : system) : system :=
  let '(s, p') := advance p (sys_state sys) in
  System s (if suspended p' then pending sys ++ [p'] else pending sys).

(** The suspended call number [i] goes on as [p], until its next [await]
    or its end. *)
Definition continue (i : nat) (p : prog value) (sys : system) : system :=
  let '(s, p') := advance p (sys_state sys) in
  System s (if suspended p' then <[i := p']> (pending sys)
            else delete i (pending sys)).

(** ** The provider *)

Section AuthProvider.

(** [import.meta.env.VITE_BACKEND_URL], [None] when it is not set. *)
Variable VITE_BACKEND_URL : option string.

Definition BACKEND_URL : string :=
  if truthy_item VITE_BACKEND_URL then default "" VITE_BACKEND_URL
  else "http://localhost:3000".

Definition user_me_request (token : value) : request :=
  Request (BACKEND_URL +:+ "/user/me") "GET"
          [("Authorization", "Bearer " +:+ to_string token)] None.

Definition login_request (username password : string) : request :=
  Request (BACKEND_URL +:+ "/login") "POST"
          [("Content-Type", "application/json")]
          (Some (VObj [("username", VStr username);
                       ("password", VStr password)])).

Definition register_request (userData : value) : request :=
  Request (BACKEND_URL +:+ "/register") "POST"
          [("Content-Type", "application/json")]
          (Some userData).

Definition fetchUserData (token : value) : prog value :=
  try_catch
    (res ← fetch (user_me_request token);
     if negb (res_ok res) then
       Throw (new_Error (VStr "Failed to fetch user data."))
     else
       data ← json res;
       data_user ← member data "user";
       do (SetUser data_user);;
       Ret VUndef)
    (λ error,
       do (ConsoleError [CExn error]);;
       do (SetUser VNull);;
       Throw error).

(** The effect of [useEffect(..., [])], run once when the provider mounts. *)
Definition mount_effect : prog value :=
  item ← getItem "token";
  if truthy_item item then
    let token := default "" item in
    try_catch
      (fetchUserData (VStr token);;
       Ret VUndef)
      (λ error,
         do (ConsoleError [CStr "Error fetching user data on mount:";
                           CExn error]);;
         Ret VUndef)
  else
    do (SetUser VNull);;
    Ret VUndef.

Definition logout : prog value :=
  do (RemoveItem "token");;
  do (SetUser VNull);;
  do (Navigate "/");;
  Ret VUndef.

Definition login (username password : string) : prog value :=
  try_catch
    (res ← fetch (login_request username password);
     if negb (res_ok res) then
       errorData ← json res;
       message ← member errorData "message";
       Throw (new_Error message)
     else
       data ← json res;
       token ← member data "token";
       do (SetItem "token" (to_string token));;
       token ← member data "token";
       fetchUserData token;;
       do (Navigate "/profile");;
       Ret VUndef)
    (λ error, Ret (VStr (exn_message error))).

Definition register (userData : value) : prog value :=
  try_catch
    (res ← fetch (register_request userData);
     if negb (res_ok res) then
       errorData ← json res;
       message ← member errorData "message";
       Throw (new_Error message)
     else
       do (Navigate "/success");;
       Ret VUndef)
    (λ error, Ret (VStr (exn_message error))).

(** The calls the rest of the application can make through the context. *)
Inductive exported : prog value → Prop :=
| exported_login username password : exported (login username password)
| exported_logout : exported logout
| exported_register userData : exported (register userData).

(** One step of the event loop: a component calls an exported function,
    or the promise a suspended call awaits settles.  What a request
    settles to is up to the network; [res.json()] settles to the body the
    response carries. *)
Inductive step : system → system → Prop :=
| step_call sys p :
    exported p →
    step sys (launch p sys)
| step_fetch sys i rq k o :
    pending sys !! i = Some (AwaitFetch rq k) →
    step sys (continue i (k o) sys)
| step_json sys i res k :
    pending sys !! i = Some (AwaitJson res k) →
    step sys (continue i (k (res_json res)) sys).

(** The provider right after mounting: [useState(null)], then the effect. *)
Definition mounted (storage0 : gmap string string) (path0 : string) : system :=
  launch mount_effect (System (State storage0 VNull path0 []) []).

Definition reachable (storage0 : gmap string string) (path0 : string)
    (sys : system) : Prop :=
  rtc step (mounted storage0 path0) sys.

End AuthProvider.

(** ** Sample backends and data *)

(** A response with a JSON body. *)
Definition json_response (status : Z) (body : value) : response :=
  Response status (Fulfilled body).

Definition ann : value := VObj [("id", VNum 1); ("name", VStr "Ann")].

(** A backend that knows one account: [ann] with password [right], whose
    token is [tok1]; [bob] is already registered. *)
Definition sample_net (rq : request) : settled response :=
  if String.eqb (req_url rq) "http://localhost:3000/login" then
    match req_body rq with
    | Some (VObj [("username", VStr "ann"); ("password", VStr "right")]) =>
        Fulfilled (json_response 200 (VObj [("token", VStr "tok1")]))
    | _ =>
        Fulfilled (json_response 401
                     (VObj [("message", VStr "invalid credentials")]))
    end
  else if String.eqb (req_url rq) "http://localhost:3000/user/me" then
    match req_headers rq with
    | [("Authorization", "Bearer tok1")] =>
        Fulfilled (json_response 200 (VObj [("user", ann)]))
    | _ => Fulfilled (json_response 401 (VObj [("message", VStr "Unauthorized")]))
    end
  else if String.eqb (req_url rq) "http://localhost:3000/register" then
    match req_body rq with
    | Some (VObj (("username", VStr "bob") :: _)) =>
        Fulfilled (json_response 409 (VObj [("message", VStr "User exists")]))
    | _ => Fulfilled (json_response 201 (VObj []))
    end
  else Fulfilled (json_response 404 VNull).

(** The [TypeError] with which [fetch] rejects when the request cannot be
    completed. *)
Definition network_error : exn := Exn "TypeError" "Failed to fetch".

(** A backend that cannot be reached. *)
Definition offline_net (rq : request) : settled response :=
  Rejected network_error.

Definition logged_out : state := State ∅ VNull "/login" [].

(** ** What the backend's answers amount to *)

(** The backend answers [rq] with a status in the range 200-299. *)
Definition accepts (net : request → settled response) (rq : request) : bool :=
  match net rq with
  | Fulfilled res => res_ok res
  | Rejected _ => false
  end.

(** [(await res.json()).key], when neither the parsing nor the member access
    throws. *)
Definition json_member (res : response) (key : string) : option value :=
  match res_json res with
  | Fulfilled data =>
      match get_member data key with
      | inr v => Some v
      | inl _ => None
      end
  | Rejected _ => None
  end.

(** Every step of [fetchUserData token] goes through. *)
Definition resolve_succeeds (cfg : option string)
    (net : request → settled response) (token : value) : bool :=
  match net (user_me_request cfg token) with
  | Fulfilled res => res_ok res && bool_decide (is_Some (json_member res "user"))
  | Rejected _ => false
  end.

(** Every step of [login username password] goes through. *)
Definition login_succeeds (cfg : option string)
    (net : request → settled response) (username password : string) : bool :=
  match net (login_request cfg username password) with
  | Fulfilled res =>
      res_ok res &&
      match json_member res "token" with
      | Some token => resolve_succeeds cfg net token
      | None => false
      end
  | Rejected _ => false
  end.

(** ** Keeping track of the stored token *)

(** The stored token, unless it is empty, has been sent to [/user/me]. *)
Definition token_sent (cfg : option string) (s : state) : Prop :=
  ∀ t, storage s !! "token" = Some t →
       t = "" ∨ EFetch (user_me_request cfg (VStr t)) ∈ log s.

(** Programs that write the token only right before sending it to
    [/user/me]. *)
Inductive tidy (cfg : option string) {A : Type} : prog A → Prop :=
| tidy_Ret a : tidy cfg (Ret a)
| tidy_Throw e : tidy cfg (Throw e)
| tidy_Act a k :
    (∀ t, a ≠ SetItem "token" t) →
    tidy cfg k →
    tidy cfg (Act a k)
| tidy_SetItem token k :
    (∀ o, tidy cfg (k o)) →
    tidy cfg (Act (SetItem "token" (to_string token))
                  (AwaitFetch (user_me_request cfg token) k))
| tidy_GetItem key k :
    (∀ item, tidy cfg (k item)) →
    tidy cfg (GetItem key k)
| tidy_AwaitFetch rq k :
    (∀ o, tidy cfg (k o)) →
    tidy cfg (AwaitFetch rq k)
| tidy_AwaitJson res k :
    (∀ o, tidy cfg (k o)) →
    tidy cfg (AwaitJson res k).

(** The provider restarted over the storage a run has left (a hard reload):
    the [user] state and the log start afresh. *)
Definition reload (s : state) : state :=
  State (storage s) VNull (location s) [].

(** ** Schedules *)

(** What can happen next in the event loop: a component calls an exported
    function, a request of the suspended call number [i] settles, or the
    body that call is parsing is ready. *)
Inductive move : Type :=
| CallLogin (username password : string)
| CallLogout
| CallRegister (userData : value)
| Settle (i : nat) (o : settled response)
| Parsed (i : nat).

(** One move; [None] when the call number [i] is not waiting for that. *)
Definition play1 (cfg : option string) (m : move) (sys : system) : option system :=
  match m with
  | CallLogin username password => Some (launch (login cfg username password) sys)
  | CallLogout => Some (launch logout sys)
  | CallRegister userData => Some (launch (register cfg userData) sys)
  | Settle i o =>
      match pending sys !! i with
      | Some (AwaitFetch rq k) => Some (continue i (k o) sys)
      | _ => None
      end
  | Parsed i =>
      match pending sys !! i with
      | Some (AwaitJson res k) => Some (continue i (k (res_json res)) sys)
      | _ => None
      end
  end.

Fixpoint play (cfg : option string) (ms : list move) (sys : system) : option system :=
  match ms with
  | [] => Some sys
  | m :: rest =>
      match play1 cfg m sys with
      | Some sys' => play cfg rest sys'
      | None => None
      end
  end.

(** A session over a backend that issues [tok1] and then cannot be reached:
    the provider mounts over an empty storage, [login] is called, [/login]
    answers with the token, and the request to [/user/me] is rejected. *)
Definition failed_resolution : list move :=
  [CallLogin "ann" "right";
   Settle 0 (Fulfilled (json_response 200 (VObj [("token", VStr "tok1")])));
   Parsed 0;
   Settle 0 (Rejected network_error)].

(** A session in which [logout] is called while [login] is waiting for
    [/user/me], which then answers with the user. *)
Definition logout_during_login (username password token : string)
    (data_user : value) : list move :=
  [CallLogin username password;
   Settle 0 (Fulfilled (json_response 200 (VObj [("token", VStr token)])));
   Parsed 0;
   CallLogout;
   Settle 0 (Fulfilled (json_response 200 (VObj [("user", data_user)])));
   Parsed 0].

(** Where [failed_resolution] ends: nothing is suspended. *)
Definition stranded : system :=
  System
    (State {["token" := "tok1"]} VNull "/"
       [ESetUser VNull;
        EFetch (login_request None "ann" "right");
        ESetItem "token" "tok1";
        EFetch (user_me_request None (VStr "tok1"));
        EConsoleError [CExn network_error];
        ESetUser VNull])
    [].

(** ** What a program can do *)

(** Every effect the program can have, however the promises it awaits
    settle, is one of [P]. *)
Inductive emits (P : event → Prop) {A : Type} : prog A → Prop :=
| emits_Ret a : emits P (Ret a)
| emits_Throw e : emits P (Throw e)
| emits_Act a k :
    P (event_of a) → emits P k → emits P (Act a k)
| emits_GetItem key k :
    (∀ item, emits P (k item)) → emits P (GetItem key k)
| emits_AwaitFetch rq k :
    P (EFetch rq) → (∀ o, emits P (k o)) → emits P (AwaitFetch rq k)
| emits_AwaitJson res k :
    (∀ o, emits P (k o)) → emits P (AwaitJson res k).

(** The requests the provider is written to send. *)
Definition provider_request (cfg : option string) (rq : request) : Prop :=
  (∃ username password, rq = login_request cfg username password) ∨
  (∃ userData, rq = register_request cfg userData) ∨
  (∃ token, rq = user_me_request cfg token).

Definition to_backend (cfg : option string) (e : event) : Prop :=
  match e with
  | EFetch rq => provider_request cfg rq
  | _ => True
  end.

(** Effects that leave every storage key but "token" alone. *)
Definition token_only (e : event) : Prop :=
  match e with
  | ESetItem key _ | ERemoveItem key => key = "token"
  | _ => True
  end.

(** The routes the provider navigates to. *)
Definition routes : list string := ["/"; "/profile"; "/success"].

Definition to_route (e : event) : Prop :=
  match e with
  | ENavigate path => path ∈ routes
  | _ => True
  end.

(** * Properties *)

(** ** Proof tools *)

(** Effects are unfolded and the log is kept as [log s ++ new events]. *)
Ltac effects :=
  unfold perform, record; cbn; rewrite <- ?app_assoc; cbn [app].

(** The error a failed run has logged is the one it ends with. *)
Ltac thrown :=
  effects;
  match goal with |- context [CExn ?e] => exists e; reflexivity end.

(** One constructor of [tidy], or one case split on what the call got. *)
Ltac tidy_step :=
  first
    [ apply tidy_Ret
    | apply tidy_Throw
    | apply tidy_SetItem; intros
    | apply tidy_Act; [intros ? [=]|]
    | apply tidy_GetItem; intros
    | apply tidy_AwaitFetch; intros
    | apply tidy_AwaitJson; intros
    | match goal with
      | |- context [settle ?o] => destruct o; cbn
      | |- context [res_ok ?res] => destruct (res_ok res); cbn
      | |- context [get_member ?v ?key] => destruct (get_member v key); cbn
      | |- context [truthy_item ?item] => destruct (truthy_item item); cbn
      end ].

(** Every effect of the exported calls and of the mount effect is one of
    [P], once [solve_P] shows it for each effect written in the source. *)
Ltac emits_step solve_P :=
  first
    [ apply emits_Ret
    | apply emits_Throw
    | apply emits_Act; [solve_P|]
    | apply emits_GetItem; intros
    | apply emits_AwaitFetch; [solve_P|intros]
    | apply emits_AwaitJson; intros
    | match goal with
      | |- context [settle ?o] => destruct o; cbn
      | |- context [res_ok ?res] => destruct (res_ok res); cbn
      | |- context [get_member ?v ?key] => destruct (get_member v key); cbn
      | |- context [truthy_item ?item] => destruct (truthy_item item); cbn
      end ].

Ltac emits_all solve_P :=
  unfold mount_effect, login, logout, register, fetchUserData, member; cbn;
  repeat emits_step solve_P.

Lemma to_string_VStr_request cfg token :
  user_me_request cfg token = user_me_request cfg (VStr (to_string token)).
Proof. reflexivity. Qed.

(** ** [logout] *)

(** C7: from any state and whatever the backend does, [logout] removes the
    token, sets [user] to [null], navigates to "/" and returns; these three
    effects are all it does (no request is sent), and in the event loop it
    finishes within the call, leaving nothing suspended. *)
Theorem logout_effects (net : request → settled response) (sys : system) :
  let s := sys_state sys in
  let s' := State (delete "token" (storage s)) VNull "/"
                  (log s ++ [ERemoveItem "token"; ESetUser VNull; ENavigate "/"]) in
  run net logout s = (s', Returned VUndef) ∧
  launch logout sys = System s' (pending sys).
Proof.
  destruct sys as [s pool]. split; unfold launch; cbn; effects; reflexivity.
Qed.

(** C8: a second [logout] right after a first leaves the storage, the
    [user] state and the location as the first left them: no token, [user]
    [null], location "/". *)
Theorem logout_idempotent (net : request → settled response) (s : state) :
  let s1 := (run net logout s).1 in
  let s2 := (run net logout s1).1 in
  storage s2 = storage s1 ∧ user s2 = user s1 ∧ location s2 = location s1 ∧
  storage s2 !! "token" = None ∧ user s2 = VNull.
Proof.
  cbn. rewrite delete_delete_eq, lookup_delete_eq. done.
Qed.

(** ** [register] *)

(** C9: whether the backend accepts the registration or not, [register]
    leaves the storage and the [user] state as they were; it sends one
    request, and navigates to "/success" exactly when the request is
    accepted, which is its only other effect. *)
Theorem register_frame (cfg : option string) (net : request → settled response)
    (userData : value) (s : state) :
  let rq := register_request cfg userData in
  let s' := (run net (register cfg userData) s).1 in
  storage s' = storage s ∧ user s' = user s ∧
  location s' = (if accepts net rq then "/success" else location s) ∧
  log s' = log s ++ EFetch rq :: (if accepts net rq then [ENavigate "/success"] else []).
Proof.
  unfold accepts, register. cbn.
  destruct (net (register_request cfg userData)) as [res|e]; cbn; [|done].
  destruct (res_ok res); cbn; [effects; done|].
  destruct (res_json res) as [data|e]; cbn; [|done].
  unfold member. destruct (get_member data "message"); done.
Qed.

(** ** [fetchUserData] *)

(** C4: when the request to [/user/me] is rejected or is answered with a
    status outside 200-299, [fetchUserData] throws, and the state it throws
    from has [user] set to [null], whatever [user] was before: the last
    effect before the error reaches the caller is [setUser(null)]. *)
Theorem fetchUserData_failure (cfg : option string)
    (net : request → settled response) (token : value) (s : state) :
  accepts net (user_me_request cfg token) = false →
  ∃ error,
    run net (fetchUserData cfg token) s =
      (State (storage s) VNull (location s)
             (log s ++ [EFetch (user_me_request cfg token);
                        EConsoleError [CExn error]; ESetUser VNull]),
       Thrown error).
Proof.
  unfold accepts, fetchUserData. intros H. cbn.
  destruct (net (user_me_request cfg token)) as [res|e]; cbn.
  - rewrite H. cbn. effects. eauto.
  - effects. eauto.
Qed.

Lemma fetchUserData_failure_witness :
  ∃ error,
    run offline_net (fetchUserData None (VStr "tok1"))
        (State {["token" := "tok1"]} ann "/profile" []) =
      (State {["token" := "tok1"]} VNull "/profile"
             ([] ++ [EFetch (user_me_request None (VStr "tok1"));
                     EConsoleError [CExn error]; ESetUser VNull]),
       Thrown error).
Proof.
  exact (fetchUserData_failure None offline_net (VStr "tok1")
           (State {["token" := "tok1"]} ann "/profile" []) eq_refl).
Defined.

(** ** [login] *)

(** C2: when [/login] is answered with a status outside 200-299 and a JSON
    body whose [message] is the string [m], [login] returns [m] (it does not
    throw); the [user] state, the storage and the location are as before,
    and the request is the only effect (no navigation). *)
Theorem login_rejected (cfg : option string) (net : request → settled response)
    (username password : string) (s : state)
    (res : response) (fields : list (string * value)) (m : string) :
  net (login_request cfg username password) = Fulfilled res →
  res_ok res = false →
  res_json res = Fulfilled (VObj fields) →
  assoc "message" fields = Some (VStr m) →
  run net (login cfg username password) s =
    (State (storage s) (user s) (location s)
           (log s ++ [EFetch (login_request cfg username password)]),
     Returned (VStr m)).
Proof.
  intros Hnet Hok Hjson Hm. unfold login. cbn.
  rewrite Hnet. cbn. rewrite Hok. cbn. rewrite Hjson. cbn.
  rewrite Hm. reflexivity.
Qed.

Lemma login_rejected_witness :
  run sample_net (login None "ann" "wrong") logged_out =
    (State ∅ VNull "/login" [EFetch (login_request None "ann" "wrong")],
     Returned (VStr "invalid credentials")).
Proof.
  apply (login_rejected None sample_net "ann" "wrong" logged_out
           (json_response 401 (VObj [("message", VStr "invalid credentials")]))
           [("message", VStr "invalid credentials")] "invalid credentials");
    reflexivity.
Defined.

(** C3: when [/login] is answered with a status in 200-299 and the body
    [{token: t}], and [/user/me], asked with [t], is answered with a status
    in 200-299 and a body whose [user] is [u], then after [login] the storage
    holds [t] under "token", the [user] state is [u], the location is
    "/profile", and [login] returns [undefined]. *)
Theorem login_success (cfg : option string) (net : request → settled response)
    (username password : string) (s : state)
    (res res' : response) (fields fields' : list (string * value))
    (t : string) (u : value) :
  net (login_request cfg username password) = Fulfilled res →
  res_ok res = true →
  res_json res = Fulfilled (VObj fields) →
  assoc "token" fields = Some (VStr t) →
  net (user_me_request cfg (VStr t)) = Fulfilled res' →
  res_ok res' = true →
  res_json res' = Fulfilled (VObj fields') →
  assoc "user" fields' = Some u →
  ∃ s', run net (login cfg username password) s = (s', Returned VUndef) ∧
        storage s' !! "token" = Some t ∧
        user s' = u ∧
        location s' = "/profile".
Proof.
  intros Hnet Hok Hjson Ht Hnet' Hok' Hjson' Hu. unfold login, fetchUserData. cbn.
  rewrite Hnet. cbn. rewrite Hok. cbn. rewrite Hjson. cbn. rewrite Ht. cbn.
  rewrite Hnet'. cbn. rewrite Hok'. cbn. rewrite Hjson'. cbn. rewrite Hu. cbn.
  eexists. split; [reflexivity|]. cbn. by rewrite lookup_insert_eq.
Qed.

Lemma login_success_witness :
  ∃ s', run sample_net (login None "ann" "right") logged_out = (s', Returned VUndef) ∧
        storage s' !! "token" = Some "tok1" ∧
        user s' = ann ∧
        location s' = "/profile".
Proof.
  apply (login_success None sample_net "ann" "right" logged_out
           (json_response 200 (VObj [("token", VStr "tok1")]))
           (json_response 200 (VObj [("user", ann)]))
           [("token", VStr "tok1")] [("user", ann)] "tok1" ann);
    reflexivity.
Defined.

(** C6: in a [login] whose every step goes through, the effects happen in
    this order: the request to [/login], the write of the token to the
    storage, the request to [/user/me] carrying that token, [setUser] with
    the user received, and the navigation to "/profile".  So the token is
    written before the resolution starts, the resolution is over before the
    navigation, and [user] is set only after the token was written. *)
Theorem login_order (cfg : option string) (net : request → settled response)
    (username password : string) (s : state) :
  login_succeeds cfg net username password = true →
  ∃ token data_user,
    run net (login cfg username password) s =
      (State (<["token" := to_string token]> (storage s)) data_user "/profile"
             (log s ++ [EFetch (login_request cfg username password);
                        ESetItem "token" (to_string token);
                        EFetch (user_me_request cfg token);
                        ESetUser data_user;
                        ENavigate "/profile"]),
       Returned VUndef).
Proof.
  unfold login_succeeds, resolve_succeeds, json_member, login, fetchUserData.
  intros H. cbn.
  destruct (net (login_request cfg username password)) as [res|?]; [|done].
  apply andb_prop in H as [Hok H]. cbn. rewrite Hok. cbn.
  destruct (res_json res) as [data|?]; [|done]. cbn. unfold member.
  destruct (get_member data "token") as [?|token]; [done|]. cbn.
  destruct (net (user_me_request cfg token)) as [res'|?]; [|done].
  apply andb_prop in H as [Hok' H]. cbn. rewrite Hok'. cbn.
  destruct (res_json res') as [data'|?]; cbn in *; [|done].
  destruct (get_member data' "user") as [?|data_user]; cbn in *; [done|].
  effects. eauto.
Qed.

Lemma login_order_witness :
  ∃ token data_user,
    run sample_net (login None "ann" "right") logged_out =
      (State (<["token" := to_string token]> (storage logged_out)) data_user
             "/profile"
             (log logged_out ++ [EFetch (login_request None "ann" "right");
                        ESetItem "token" (to_string token);
                        EFetch (user_me_request None token);
                        ESetUser data_user;
                        ENavigate "/profile"]),
       Returned VUndef).
Proof.
  exact (login_order None sample_net "ann" "right" logged_out eq_refl).
Defined.

(** C10: [login] and [register] always return, and never throw.  [login]
    returns [undefined] when every one of its steps goes through and a
    string otherwise; [register] returns [undefined] when its request is
    accepted and a string otherwise. *)
Theorem return_values (cfg : option string) (net : request → settled response)
    (s : state) :
  (∀ username password, ∃ s',
     if login_succeeds cfg net username password
     then run net (login cfg username password) s = (s', Returned VUndef)
     else ∃ m, run net (login cfg username password) s = (s', Returned (VStr m)))
  ∧
  (∀ userData, ∃ s',
     if accepts net (register_request cfg userData)
     then run net (register cfg userData) s = (s', Returned VUndef)
     else ∃ m, run net (register cfg userData) s = (s', Returned (VStr m))).
Proof.
  split.
  - intros username password.
    unfold login_succeeds, resolve_succeeds, json_member, login, fetchUserData.
    cbn.
    destruct (net (login_request cfg username password)) as [res|?]; cbn; [|eauto].
    destruct (res_ok res); cbn.
    + destruct (res_json res) as [data|?]; cbn; [|eauto]. unfold member.
      destruct (get_member data "token") as [?|token]; cbn; [eauto|].
      destruct (net (user_me_request cfg token)) as [res'|?]; cbn; [|eauto].
      destruct (res_ok res'); cbn; [|eauto].
      destruct (res_json res') as [data'|?]; cbn.
      * destruct (get_member data' "user") as [?|data_user]; cbn; eauto.
      * eauto.
    + destruct (res_json res) as [data|?]; cbn; [|eauto]. unfold member.
      destruct (get_member data "message"); cbn; eauto.
  - intros userData. unfold accepts, register. cbn.
    destruct (net (register_request cfg userData)) as [res|?]; cbn; [|eauto].
    destruct (res_ok res); cbn; [eauto|].
    destruct (res_json res) as [data|?]; cbn; [|eauto]. unfold member.
    destruct (get_member data "message"); cbn; eauto.
Qed.

(** ** The mount effect *)

(** C5 (as the code has it): the mount effect always returns and never
    throws.  With no token in the storage, or an empty one, it sets [user]
    to [null] and sends nothing.  With a non-empty token [t] it sends [t] to
    [/user/me]; when that resolution goes through [user] is the user
    received; when it fails the error is logged twice (by [fetchUserData]
    and by the effect), [user] is [null], and the effect still returns. *)
Theorem mount_effect_outcome (cfg : option string)
    (net : request → settled response) (s : state) :
  let item := storage s !! "token" in
  let token := VStr (default "" item) in
  ∃ s', run net (mount_effect cfg) s = (s', Returned VUndef) ∧
    if truthy_item item then
      if resolve_succeeds cfg net token then
        ∃ data_user,
          s' = State (storage s) data_user (location s)
                     (log s ++ [EFetch (user_me_request cfg token);
                                ESetUser data_user])
      else
        ∃ error,
          s' = State (storage s) VNull (location s)
                     (log s ++ [EFetch (user_me_request cfg token);
                                EConsoleError [CExn error];
                                ESetUser VNull;
                                EConsoleError
                                  [CStr "Error fetching user data on mount:";
                                   CExn error]])
    else
      s' = State (storage s) VNull (location s) (log s ++ [ESetUser VNull]).
Proof.
  unfold mount_effect, resolve_succeeds, json_member, fetchUserData. cbn.
  destruct (truthy_item (storage s !! "token")); cbn; [|eauto].
  destruct (net _) as [res|?]; cbn; [|effects; eauto].
  destruct (res_ok res); cbn; [|effects; eauto].
  destruct (res_json res) as [data|?]; cbn; [|effects; eauto].
  unfold member. destruct (get_member data "user"); cbn; effects; eauto.
Qed.

(** C5 (as written) fails on an empty token: it is stored, and the mount
    effect sends no request for it. *)
Lemma mount_effect_empty_token :
  let s := State {["token" := ""]} VNull "/" [] in
  storage s !! "token" = Some "" ∧
  run sample_net (mount_effect None) s =
    (State {["token" := ""]} VNull "/" [ESetUser VNull], Returned VUndef).
Proof. split; reflexivity. Qed.

(** ** The stored token and the [user] state *)

Lemma token_sent_perform cfg a s :
  (∀ t, a ≠ SetItem "token" t) →
  token_sent cfg s → token_sent cfg (perform a s).
Proof.
  intros Ha Hs t. destruct a as [key val| key | | |]; cbn.
  - destruct (decide (key = "token")) as [->|Hkey]; [by destruct (Ha val)|].
    rewrite lookup_insert_ne by done. intros [->|?]%Hs; set_solver.
  - destruct (decide (key = "token")) as [->|Hkey].
    + by rewrite lookup_delete_eq.
    + rewrite lookup_delete_ne by done. intros [->|?]%Hs; set_solver.
  - intros [->|?]%Hs; set_solver.
  - intros [->|?]%Hs; set_solver.
  - intros [->|?]%Hs; set_solver.
Qed.

Lemma token_sent_record cfg e s :
  token_sent cfg s → token_sent cfg (record e s).
Proof. intros Hs t. cbn. intros [->|?]%Hs; set_solver. Qed.

Lemma advance_tidy cfg (p : prog value) s :
  tidy cfg p → token_sent cfg s →
  token_sent cfg (advance p s).1 ∧ tidy cfg (advance p s).2.
Proof.
  intros Hp. revert s.
  induction Hp as [| |a k Ha Hk IH|token k Hk IH|key k Hk IH|rq k Hk IH|res k Hk IH];
    intros s Hs; cbn.
  - split; [done|constructor].
  - split; [done|constructor].
  - apply IH. by apply token_sent_perform.
  - split; [|by constructor].
    intros t. cbn. rewrite lookup_insert_eq. intros [= <-]. right.
    rewrite <- to_string_VStr_request. set_unfold. auto.
  - apply IH, Hs.
  - split; [by apply token_sent_record|by constructor].
  - split; [done|by constructor].
Qed.

(** Every exported call, and the mount effect, is tidy. *)
Lemma fetchUserData_tidy cfg token : tidy cfg (fetchUserData cfg token).
Proof. unfold fetchUserData, member. cbn. repeat tidy_step. Qed.

Lemma exported_tidy cfg p : exported cfg p → tidy cfg p.
Proof.
  intros [username password| |userData];
    unfold login, logout, register, fetchUserData, member; cbn;
    repeat tidy_step.
Qed.

Lemma mount_effect_tidy cfg : tidy cfg (mount_effect cfg).
Proof. unfold mount_effect, fetchUserData, member. cbn. repeat tidy_step. Qed.

Lemma launch_tidy cfg p sys :
  tidy cfg p →
  token_sent cfg (sys_state sys) → Forall (tidy cfg) (pending sys) →
  token_sent cfg (sys_state (launch p sys)) ∧
  Forall (tidy cfg) (pending (launch p sys)).
Proof.
  intros Hp Hs Hpool. unfold launch.
  destruct (advance_tidy cfg p (sys_state sys) Hp Hs) as [Hs' Hp'].
  destruct (advance p (sys_state sys)) as [s' p']. cbn in *.
  split; [done|]. destruct (suspended p'); [|done].
  apply Forall_app. split; [done|]. by constructor.
Qed.

Lemma continue_tidy cfg i p sys :
  tidy cfg p →
  token_sent cfg (sys_state sys) → Forall (tidy cfg) (pending sys) →
  token_sent cfg (sys_state (continue i p sys)) ∧
  Forall (tidy cfg) (pending (continue i p sys)).
Proof.
  intros Hp Hs Hpool. unfold continue.
  destruct (advance_tidy cfg p (sys_state sys) Hp Hs) as [Hs' Hp'].
  destruct (advance p (sys_state sys)) as [s' p']. cbn in *.
  split; [done|]. destruct (suspended p').
  - by apply Forall_insert.
  - by apply Forall_delete.
Qed.

Lemma mounted_tidy cfg storage0 path0 :
  token_sent cfg (sys_state (mounted cfg storage0 path0)) ∧
  Forall (tidy cfg) (pending (mounted cfg storage0 path0)).
Proof.
  unfold mounted, launch, mount_effect. cbn.
  destruct (storage0 !! "token") as [t|] eqn:Ht; cbn.
  - destruct (String.eqb_spec t "") as [->|Hne]; cbn.
    + split; [|constructor]. intros t. cbn. rewrite Ht. intros [= <-]. by left.
    + split.
      * intros t'. cbn. rewrite Ht. intros [= <-]. right. set_unfold. auto.
      * repeat constructor. intros o.
        unfold member. repeat tidy_step.
  - split; [|constructor]. intros t. cbn. by rewrite Ht.
Qed.

Lemma step_tidy cfg sys sys' :
  step cfg sys sys' →
  token_sent cfg (sys_state sys) → Forall (tidy cfg) (pending sys) →
  token_sent cfg (sys_state sys') ∧ Forall (tidy cfg) (pending sys').
Proof.
  intros [sys0 p Hp|sys0 i rq k o Hi|sys0 i res k Hi] Hs Hpool.
  - apply launch_tidy; [by apply exported_tidy|done..].
  - apply continue_tidy; [|done..].
    pose proof (proj1 (Forall_lookup _ _) Hpool i _ Hi) as Hk.
    by inversion Hk.
  - apply continue_tidy; [|done..].
    pose proof (proj1 (Forall_lookup _ _) Hpool i _ Hi) as Hk.
    by inversion Hk.
Qed.

Lemma reachable_tidy cfg storage0 path0 sys :
  reachable cfg storage0 path0 sys →
  token_sent cfg (sys_state sys) ∧ Forall (tidy cfg) (pending sys).
Proof.
  unfold reachable. intros H.
  apply (rtc_ind_r (R := step cfg)
           (λ sys, token_sent cfg (sys_state sys) ∧ Forall (tidy cfg) (pending sys))
           (mounted cfg storage0 path0)); [| |done].
  - apply mounted_tidy.
  - intros sys1 sys2 _ Hstep [Hs Hpool]. by eapply step_tidy.
Qed.

(** Schedules stay within the reachable systems. *)
Lemma play1_step cfg m sys sys' :
  play1 cfg m sys = Some sys' → step cfg sys sys'.
Proof.
  destruct m as [username password| |userData|i o|i]; unfold play1.
  - intros [= <-]. apply step_call. constructor.
  - intros [= <-]. apply step_call. constructor.
  - intros [= <-]. apply step_call. constructor.
  - destruct (pending sys !! i) as [[]|] eqn:Hi; try done.
    intros [= <-]. by eapply step_fetch.
  - destruct (pending sys !! i) as [[]|] eqn:Hi; try done.
    intros [= <-]. by eapply step_json.
Qed.

Lemma play_rtc cfg ms sys sys' :
  play cfg ms sys = Some sys' → rtc (step cfg) sys sys'.
Proof.
  revert sys. induction ms as [|m rest IH]; intros sys; cbn [play].
  - intros [= <-]. apply rtc_refl.
  - destruct (play1 cfg m sys) as [sys1|] eqn:Hm; [|done].
    intros Hrest. eapply rtc_l; [by eapply play1_step|by apply IH].
Qed.

Lemma play_reachable cfg ms storage0 path0 sys :
  play cfg ms (mounted cfg storage0 path0) = Some sys →
  reachable cfg storage0 path0 sys.
Proof. apply play_rtc. Qed.

Lemma failed_resolution_plays :
  play None failed_resolution (mounted None ∅ "/") = Some stranded.
Proof. vm_compute. reflexivity. Qed.

(** C1 (as written) fails after a resolution that failed: the session
    [failed_resolution] ends in [stranded], where nothing is suspended, the
    token [tok1] is in the storage, and [user] is [null]. *)
Lemma token_without_user :
  reachable None ∅ "/" stranded ∧
  pending stranded = [] ∧
  storage (sys_state stranded) !! "token" = Some "tok1" ∧
  user (sys_state stranded) = VNull.
Proof.
  split; [apply (play_reachable _ _ _ _ _ failed_resolution_plays)|]. by vm_compute.
Qed.

(** C1 (as the code has it): in every state the provider can reach, a token
    in the storage is empty or has been sent to [/user/me]: its resolution
    was started, and is in progress or over.  (It may have failed: the
    token then stays, with [user] [null].) *)
Theorem stored_token_sent (cfg : option string)
    (storage0 : gmap string string) (path0 : string) (sys : system) (t : string) :
  reachable cfg storage0 path0 sys →
  storage (sys_state sys) !! "token" = Some t →
  t = "" ∨ EFetch (user_me_request cfg (VStr t)) ∈ log (sys_state sys).
Proof.
  intros Hsys. by apply (reachable_tidy _ _ _ _ Hsys).
Qed.

Lemma stored_token_sent_witness :
  "tok1" = "" ∨
  EFetch (user_me_request None (VStr "tok1")) ∈ log (sys_state stranded).
Proof.
  apply (stored_token_sent None ∅ "/" stranded "tok1").
  - apply (play_reachable _ _ _ _ _ failed_resolution_plays).
  - reflexivity.
Defined.

(** ** More on [fetchUserData] *)

(** X1: [fetchUserData] never touches the storage or the location.  It
    returns when every step goes through (request answered with a status in
    200-299, body parsed, [user] read from it), and then [user] is what the
    body holds under [user]; in every other case, a body that cannot be
    parsed included, it throws and [user] is [null]. *)
Theorem fetchUserData_outcome (cfg : option string)
    (net : request → settled response) (token : value) (s : state) :
  ∃ s' r, run net (fetchUserData cfg token) s = (s', r) ∧
    storage s' = storage s ∧ location s' = location s ∧
    if resolve_succeeds cfg net token then
      r = Returned VUndef ∧
      ∃ res, net (user_me_request cfg token) = Fulfilled res ∧
             json_member res "user" = Some (user s')
    else
      user s' = VNull ∧ ∃ error, r = Thrown error.
Proof.
  unfold resolve_succeeds, json_member, fetchUserData. cbn.
  destruct (net (user_me_request cfg token)) as [res|?]; cbn; [|eauto 10].
  destruct (res_ok res); cbn; [|eauto 10].
  destruct (res_json res) as [data|?] eqn:Hjson; cbn; [|eauto 10].
  unfold member. destruct (get_member data "user") eqn:Hu; cbn; [eauto 10|].
  do 2 eexists. repeat split. exists res. by rewrite Hjson, Hu.
Qed.

(** X2: an answer with a status in 200-299 whose body is an object without
    [user] is no failure for [fetchUserData]: it returns, and [user] is
    [undefined] (not [null]). *)
Theorem fetchUserData_missing_user (cfg : option string)
    (net : request → settled response) (token : value) (s : state)
    (res : response) (fields : list (string * value)) :
  net (user_me_request cfg token) = Fulfilled res →
  res_ok res = true →
  res_json res = Fulfilled (VObj fields) →
  assoc "user" fields = None →
  run net (fetchUserData cfg token) s =
    (State (storage s) VUndef (location s)
           (log s ++ [EFetch (user_me_request cfg token); ESetUser VUndef]),
     Returned VUndef).
Proof.
  intros Hnet Hok Hjson Hu. unfold fetchUserData. cbn.
  rewrite Hnet. cbn. rewrite Hok. cbn. rewrite Hjson. cbn. rewrite Hu. cbn.
  effects. reflexivity.
Qed.

Lemma fetchUserData_missing_user_witness :
  run (λ _, Fulfilled (json_response 200 (VObj []))) 
      (fetchUserData None (VStr "tok1")) logged_out =
    (State (storage logged_out) VUndef (location logged_out)
           (log logged_out ++
              [EFetch (user_me_request None (VStr "tok1")); ESetUser VUndef]),
     Returned VUndef).
Proof.
  exact (fetchUserData_missing_user None
           (λ _, Fulfilled (json_response 200 (VObj [])))
           (VStr "tok1") logged_out (json_response 200 (VObj [])) []
           eq_refl eq_refl eq_refl eq_refl).
Defined.

(** ** More on [login] *)

(** X3: when the request to [/login] is rejected (the backend cannot be
    reached), [login] returns the message of the rejection; it changes
    neither storage, [user] nor location, and sends nothing else. *)
Theorem login_network_failure (cfg : option string)
    (net : request → settled response) (username password : string)
    (s : state) (e : exn) :
  net (login_request cfg username password) = Rejected e →
  run net (login cfg username password) s =
    (State (storage s) (user s) (location s)
           (log s ++ [EFetch (login_request cfg username password)]),
     Returned (VStr (exn_message e))).
Proof.
  intros Hnet. unfold login. cbn. rewrite Hnet. reflexivity.
Qed.

Lemma login_network_failure_witness :
  run offline_net (login None "ann" "right") logged_out =
    (State (storage logged_out) (user logged_out) (location logged_out)
           (log logged_out ++ [EFetch (login_request None "ann" "right")]),
     Returned (VStr (exn_message network_error))).
Proof.
  exact (login_network_failure None offline_net "ann" "right" logged_out
           network_error eq_refl).
Defined.

(** X4: when [/login] hands out a token and its resolution then fails,
    [login] returns the message of that failure, does not navigate, and
    leaves [user] [null] with the token still in the storage. *)
Theorem login_keeps_token (cfg : option string)
    (net : request → settled response) (username password : string)
    (s : state) (res : response) (token : value) :
  net (login_request cfg username password) = Fulfilled res →
  res_ok res = true →
  json_member res "token" = Some token →
  resolve_succeeds cfg net token = false →
  ∃ error,
    run net (login cfg username password) s =
      (State (<["token" := to_string token]> (storage s)) VNull (location s)
             (log s ++ [EFetch (login_request cfg username password);
                        ESetItem "token" (to_string token);
                        EFetch (user_me_request cfg token);
                        EConsoleError [CExn error];
                        ESetUser VNull]),
       Returned (VStr (exn_message error))).
Proof.
  unfold json_member, resolve_succeeds, json_member, login, fetchUserData.
  intros Hnet Hok Htoken Hfail. cbn. rewrite Hnet. cbn. rewrite Hok. cbn.
  destruct (res_json res) as [data|?]; [|done]. cbn. unfold member.
  destruct (get_member data "token") as [?|token']; [done|].
  injection Htoken as ->. cbn.
  destruct (net (user_me_request cfg token)) as [res'|?]; cbn in *;
    [|thrown].
  destruct (res_ok res'); cbn in *; [|thrown].
  destruct (res_json res') as [data'|?]; cbn in *;
    [|thrown].
  destruct (get_member data' "user"); cbn in *; [|done].
  thrown.
Qed.

Lemma login_keeps_token_witness :
  ∃ error,
    run (λ rq, if String.eqb (req_method rq) "POST" then sample_net rq
               else Rejected network_error)
        (login None "ann" "right") logged_out =
      (State (<["token" := to_string (VStr "tok1")]> (storage logged_out))
             VNull (location logged_out)
             (log logged_out ++ [EFetch (login_request None "ann" "right");
                        ESetItem "token" (to_string (VStr "tok1"));
                        EFetch (user_me_request None (VStr "tok1"));
                        EConsoleError [CExn error];
                        ESetUser VNull]),
       Returned (VStr (exn_message error))).
Proof.
  exact (login_keeps_token None
           (λ rq, if String.eqb (req_method rq) "POST" then sample_net rq
                  else Rejected network_error)
           "ann" "right" logged_out
           (json_response 200 (VObj [("token", VStr "tok1")])) (VStr "tok1")
           eq_refl eq_refl eq_refl eq_refl).
Defined.

(** X5: [login] navigates to "/profile" when every step goes through and
    nowhere otherwise, and in the storage it changes no key but "token". *)
Theorem login_frame (cfg : option string) (net : request → settled response)
    (username password : string) (s : state) :
  let s' := (run net (login cfg username password) s).1 in
  location s' = (if login_succeeds cfg net username password
                 then "/profile" else location s) ∧
  ∀ key, key ≠ "token" → storage s' !! key = storage s !! key.
Proof.
  unfold login_succeeds, resolve_succeeds, json_member, login, fetchUserData.
  cbn.
  destruct (net (login_request cfg username password)) as [res|?]; cbn; [|done].
  destruct (res_ok res); cbn.
  - destruct (res_json res) as [data|?]; cbn; [|done]. unfold member.
    destruct (get_member data "token") as [?|token]; cbn; [done|].
    assert (∀ key, key ≠ "token" →
              <["token" := to_string token]> (storage s) !! key = storage s !! key)
      by (intros; by apply lookup_insert_ne).
    destruct (net (user_me_request cfg token)) as [res'|?]; cbn; [|done].
    destruct (res_ok res'); cbn; [|done].
    destruct (res_json res') as [data'|?]; cbn; [|done].
    destruct (get_member data' "user"); cbn; done.
  - destruct (res_json res) as [data|?]; cbn; [|done]. unfold member.
    destruct (get_member data "message"); cbn; done.
Qed.

(** X6: when [/login] is answered with a status outside 200-299 and a JSON
    object without [message], [login] returns the empty string: a failure
    that a caller testing the returned value for truth takes for success. *)
Theorem login_missing_message (cfg : option string)
    (net : request → settled response) (username password : string)
    (s : state) (res : response) (fields : list (string * value)) :
  net (login_request cfg username password) = Fulfilled res →
  res_ok res = false →
  res_json res = Fulfilled (VObj fields) →
  assoc "message" fields = None →
  run net (login cfg username password) s =
    (State (storage s) (user s) (location s)
           (log s ++ [EFetch (login_request cfg username password)]),
     Returned (VStr "")).
Proof.
  intros Hnet Hok Hjson Hm. unfold login. cbn.
  rewrite Hnet. cbn. rewrite Hok. cbn. rewrite Hjson. cbn.
  rewrite Hm. reflexivity.
Qed.

Lemma login_missing_message_witness :
  run (λ _, Fulfilled (json_response 500 (VObj [("error", VStr "boom")])))
      (login None "ann" "right") logged_out =
    (State (storage logged_out) (user logged_out) (location logged_out)
           (log logged_out ++ [EFetch (login_request None "ann" "right")]),
     Returned (VStr "")).
Proof.
  exact (login_missing_message None
           (λ _, Fulfilled (json_response 500 (VObj [("error", VStr "boom")])))
           "ann" "right" logged_out
           (json_response 500 (VObj [("error", VStr "boom")]))
           [("error", VStr "boom")] eq_refl eq_refl eq_refl eq_refl).
Defined.

(** X7: when [/login] is answered with a status outside 200-299 and a body
    that is no JSON, [login] returns the message of the parse error, and
    nothing of the answer. *)
Theorem login_unparsable_error (cfg : option string)
    (net : request → settled response) (username password : string)
    (s : state) (res : response) (e : exn) :
  net (login_request cfg username password) = Fulfilled res →
  res_ok res = false →
  res_json res = Rejected e →
  run net (login cfg username password) s =
    (State (storage s) (user s) (location s)
           (log s ++ [EFetch (login_request cfg username password)]),
     Returned (VStr (exn_message e))).
Proof.
  intros Hnet Hok Hjson. unfold login. cbn.
  rewrite Hnet. cbn. rewrite Hok. cbn. rewrite Hjson. reflexivity.
Qed.

Lemma login_unparsable_error_witness :
  run (λ _, Fulfilled (Response 502 (Rejected (Exn "SyntaxError" "Unexpected token <"))))
      (login None "ann" "right") logged_out =
    (State (storage logged_out) (user logged_out) (location logged_out)
           (log logged_out ++ [EFetch (login_request None "ann" "right")]),
     Returned (VStr (exn_message (Exn "SyntaxError" "Unexpected token <")))).
Proof.
  exact (login_unparsable_error None
           (λ _, Fulfilled (Response 502 (Rejected (Exn "SyntaxError" "Unexpected token <"))))
           "ann" "right" logged_out
           (Response 502 (Rejected (Exn "SyntaxError" "Unexpected token <")))
           (Exn "SyntaxError" "Unexpected token <") eq_refl eq_refl eq_refl).
Defined.

(** X8: when [/login] is answered with a status in 200-299 and a JSON
    object without [token], [login] stores the string "undefined" as the
    token and asks [/user/me] with the header "Bearer undefined". *)
Theorem login_missing_token (cfg : option string)
    (net : request → settled response) (username password : string)
    (s : state) (res : response) (fields : list (string * value)) :
  net (login_request cfg username password) = Fulfilled res →
  res_ok res = true →
  res_json res = Fulfilled (VObj fields) →
  assoc "token" fields = None →
  let s' := (run net (login cfg username password) s).1 in
  storage s' !! "token" = Some "undefined" ∧
  ∃ rest,
    log s' = log s ++
      [EFetch (login_request cfg username password);
       ESetItem "token" "undefined";
       EFetch (Request (BACKEND_URL cfg +:+ "/user/me") "GET"
                       [("Authorization", "Bearer undefined")] None)] ++ rest.
Proof.
  intros Hnet Hok Hjson Ht. unfold login, fetchUserData. cbn.
  rewrite Hnet. cbn. rewrite Hok. cbn. rewrite Hjson. cbn. rewrite Ht. cbn.
  destruct (net (user_me_request cfg VUndef)) as [res'|?]; cbn;
    [|effects; split; [apply lookup_insert_eq|by eexists]].
  destruct (res_ok res'); cbn;
    [|effects; split; [apply lookup_insert_eq|by eexists]].
  destruct (res_json res') as [data'|?]; cbn;
    [|effects; split; [apply lookup_insert_eq|by eexists]].
  unfold member. destruct (get_member data' "user"); cbn; effects;
    (split; [apply lookup_insert_eq|by eexists]).
Qed.

Lemma login_missing_token_witness :
  let s' := (run (λ _, Fulfilled (json_response 200 (VObj [])))
                 (login None "ann" "right") logged_out).1 in
  storage s' !! "token" = Some "undefined" ∧
  ∃ rest,
    log s' = log logged_out ++
      [EFetch (login_request None "ann" "right");
       ESetItem "token" "undefined";
       EFetch (Request (BACKEND_URL None +:+ "/user/me") "GET"
                       [("Authorization", "Bearer undefined")] None)] ++ rest.
Proof.
  exact (login_missing_token None
           (λ _, Fulfilled (json_response 200 (VObj [])))
           "ann" "right" logged_out (json_response 200 (VObj [])) []
           eq_refl eq_refl eq_refl eq_refl).
Defined.

(** ** More on [register] *)

(** X9: when [/register] is answered with a status outside 200-299 and a
    JSON body whose [message] is the string [m], [register] returns [m]; it
    does not navigate and changes nothing. *)
Theorem register_rejected (cfg : option string)
    (net : request → settled response) (userData : value) (s : state)
    (res : response) (fields : list (string * value)) (m : string) :
  net (register_request cfg userData) = Fulfilled res →
  res_ok res = false →
  res_json res = Fulfilled (VObj fields) →
  assoc "message" fields = Some (VStr m) →
  run net (register cfg userData) s =
    (State (storage s) (user s) (location s)
           (log s ++ [EFetch (register_request cfg userData)]),
     Returned (VStr m)).
Proof.
  intros Hnet Hok Hjson Hm. unfold register. cbn.
  rewrite Hnet. cbn. rewrite Hok. cbn. rewrite Hjson. cbn.
  rewrite Hm. reflexivity.
Qed.

Lemma register_rejected_witness :
  run sample_net (register None (VObj [("username", VStr "bob")])) logged_out =
    (State (storage logged_out) (user logged_out) (location logged_out)
           (log logged_out ++
              [EFetch (register_request None (VObj [("username", VStr "bob")]))]),
     Returned (VStr "User exists")).
Proof.
  exact (register_rejected None sample_net (VObj [("username", VStr "bob")])
           logged_out (json_response 409 (VObj [("message", VStr "User exists")]))
           [("message", VStr "User exists")] "User exists"
           eq_refl eq_refl eq_refl eq_refl).
Defined.

(** ** Sessions *)

(** X10: a hard reload after a [login] whose every step went through, with a
    token that is not empty: the mount effect of the restarted provider
    finds the token that [login] stored, sends it to [/user/me], and, the
    backend answering as before, ends with the same [user]. *)
Theorem reload_restores_user (cfg : option string)
    (net : request → settled response) (username password : string)
    (s : state) :
  login_succeeds cfg net username password = true →
  let s1 := (run net (login cfg username password) s).1 in
  truthy_item (storage s1 !! "token") = true →
  let s2 := (run net (mount_effect cfg) (reload s1)).1 in
  user s2 = user s1 ∧ storage s2 = storage s1 ∧
  ∃ t, storage s1 !! "token" = Some t ∧
       log s2 = [EFetch (user_me_request cfg (VStr t)); ESetUser (user s1)].
Proof.
  unfold login_succeeds, resolve_succeeds, json_member, login, mount_effect,
    fetchUserData.
  intros H. cbn.
  destruct (net (login_request cfg username password)) as [res|?]; [|done].
  apply andb_prop in H as [Hok H]. cbn. rewrite Hok. cbn.
  destruct (res_json res) as [data|?]; [|done]. cbn. unfold member.
  destruct (get_member data "token") as [?|token]; [done|]. cbn.
  rewrite (to_string_VStr_request cfg token) in *.
  destruct (net (user_me_request cfg (VStr (to_string token)))) as [res'|?] eqn:Hnet';
    [|done].
  apply andb_prop in H as [Hok' H]. cbn. rewrite Hok'. cbn.
  destruct (res_json res') as [data'|?] eqn:Hjson'; cbn in *; [|done].
  destruct (get_member data' "user") as [?|data_user] eqn:Hu; cbn in *; [done|].
  rewrite lookup_insert_eq. cbn. intros ->. cbn.
  rewrite Hnet'. cbn. rewrite Hok'. cbn. rewrite Hjson'. cbn. rewrite Hu. cbn.
  eauto.
Qed.

Lemma reload_restores_user_witness :
  let s1 := (run sample_net (login None "ann" "right") logged_out).1 in
  let s2 := (run sample_net (mount_effect None) (reload s1)).1 in
  user s2 = user s1 ∧ storage s2 = storage s1 ∧
  ∃ t, storage s1 !! "token" = Some t ∧
       log s2 = [EFetch (user_me_request None (VStr t)); ESetUser (user s1)].
Proof.
  exact (reload_restores_user None sample_net "ann" "right" logged_out
           eq_refl eq_refl).
Defined.

(** X11: [logout] does not cancel a [login] that is waiting for [/user/me].
    When the provider has mounted without resolving a token, [login] is
    called, [logout] is called while the request to [/user/me] is on its
    way, and the answer then arrives, the session ends with nothing
    suspended, no token in the storage, and yet [user] set and the location
    "/profile". *)
Theorem logout_does_not_cancel_login (cfg : option string)
    (storage0 : gmap string string) (path0 : string)
    (username password token : string) (data_user : value) :
  truthy_item (storage0 !! "token") = false →
  ∃ sys,
    play cfg (logout_during_login username password token data_user)
         (mounted cfg storage0 path0) = Some sys ∧
    pending sys = [] ∧
    storage (sys_state sys) !! "token" = None ∧
    user (sys_state sys) = data_user ∧
    location (sys_state sys) = "/profile".
Proof.
  intros Hitem. unfold mounted, launch, mount_effect. cbn.
  rewrite Hitem. cbn. eexists. split; [reflexivity|]. cbn.
  by rewrite lookup_delete_eq.
Qed.

Lemma logout_does_not_cancel_login_witness :
  ∃ sys,
    play None (logout_during_login "ann" "right" "tok1" ann)
         (mounted None ∅ "/login") = Some sys ∧
    pending sys = [] ∧
    storage (sys_state sys) !! "token" = None ∧
    user (sys_state sys) = ann ∧
    location (sys_state sys) = "/profile".
Proof.
  exact (logout_does_not_cancel_login None ∅ "/login" "ann" "right" "tok1" ann
           eq_refl).
Defined.

(** ** What the provider never does *)

Section Invariant.

Context (cfg : option string) (P : event → Prop) (I : state → Prop).

Hypothesis I_perform : ∀ a s, P (event_of a) → I s → I (perform a s).
Hypothesis I_fetch : ∀ rq s, P (EFetch rq) → I s → I (record (EFetch rq) s).
Hypothesis exported_emits : ∀ p, exported cfg p → emits P p.
Hypothesis mount_emits : emits P (mount_effect cfg).

Lemma advance_emits (p : prog value) (s : state) :
  emits P p → I s → I (advance p s).1 ∧ emits P (advance p s).2.
Proof.
  intros Hp. revert s.
  induction Hp as [| |a k Ha Hk IH|key k Hk IH|rq k Hrq Hk IH|res k Hk IH];
    intros s Hs; cbn.
  - split; [done|constructor].
  - split; [done|constructor].
  - apply IH. by apply I_perform.
  - apply IH, Hs.
  - split; [by apply I_fetch|by constructor].
  - split; [done|by constructor].
Qed.

Lemma step_emits (sys sys' : system) :
  step cfg sys sys' →
  I (sys_state sys) → Forall (emits P) (pending sys) →
  I (sys_state sys') ∧ Forall (emits P) (pending sys').
Proof.
  intros [sys0 p Hp|sys0 i rq k o Hi|sys0 i res k Hi] Hs Hpool.
  - unfold launch.
    destruct (advance_emits p (sys_state sys0) (exported_emits p Hp) Hs)
      as [Hs' Hp'].
    destruct (advance p (sys_state sys0)) as [s' p']. cbn in *.
    split; [done|]. destruct (suspended p'); [|done].
    apply Forall_app. split; [done|]. by constructor.
  - pose proof (proj1 (Forall_lookup _ _) Hpool i _ Hi) as Hk.
    inversion Hk as [| | | |rq' k' Hrq Hk'|]; subst. unfold continue.
    destruct (advance_emits (k o) (sys_state sys0) (Hk' o) Hs) as [Hs' Hp'].
    destruct (advance (k o) (sys_state sys0)) as [s' p']. cbn in *.
    split; [done|]. destruct (suspended p').
    + by apply Forall_insert.
    + by apply Forall_delete.
  - pose proof (proj1 (Forall_lookup _ _) Hpool i _ Hi) as Hk.
    inversion Hk as [| | | | |res' k' Hk']; subst. unfold continue.
    destruct (advance_emits (k (res_json res)) (sys_state sys0) (Hk' _) Hs)
      as [Hs' Hp'].
    destruct (advance (k (res_json res)) (sys_state sys0)) as [s' p']. cbn in *.
    split; [done|]. destruct (suspended p').
    + by apply Forall_insert.
    + by apply Forall_delete.
Qed.

Lemma reachable_invariant (storage0 : gmap string string) (path0 : string)
    (sys : system) :
  I (State storage0 VNull path0 []) →
  reachable cfg storage0 path0 sys →
  I (sys_state sys).
Proof.
  intros Hinit Hsys.
  cut (I (sys_state sys) ∧ Forall (emits P) (pending sys)); [by intros []|].
  apply (rtc_ind_r (R := step cfg)
           (λ sys, I (sys_state sys) ∧ Forall (emits P) (pending sys))
           (mounted cfg storage0 path0)); [| |done].
  - unfold mounted, launch. cbn [sys_state pending].
    destruct (advance_emits (mount_effect cfg) (State storage0 VNull path0 [])
                mount_emits Hinit) as [Hs' Hp'].
    destruct (advance (mount_effect cfg) _) as [s' p']. cbn in *.
    split; [done|]. destruct (suspended p'); by repeat constructor.
  - intros sys1 sys2 _ Hstep [Hs Hpool]. by eapply step_emits.
Qed.

End Invariant.

Lemma exported_to_backend cfg p : exported cfg p → emits (to_backend cfg) p.
Proof.
  intros [username password| |userData];
    emits_all ltac:(cbn; unfold provider_request; eauto 6).
Qed.

Lemma mount_to_backend cfg : emits (to_backend cfg) (mount_effect cfg).
Proof. emits_all ltac:(cbn; unfold provider_request; eauto 6). Qed.

Lemma exported_token_only cfg p : exported cfg p → emits token_only p.
Proof. intros [username password| |userData]; emits_all ltac:(by cbn). Qed.

Lemma mount_token_only cfg : emits token_only (mount_effect cfg).
Proof. emits_all ltac:(by cbn). Qed.

Lemma exported_to_route cfg p : exported cfg p → emits to_route p.
Proof.
  intros [username password| |userData];
    emits_all ltac:(cbn; first [exact Logic.I | by repeat constructor]).
Qed.

Lemma mount_to_route cfg : emits to_route (mount_effect cfg).
Proof. emits_all ltac:(cbn; first [exact Logic.I | by repeat constructor]). Qed.

(** X12: whatever is called and however the promises settle, every request
    the provider sends is one the source writes out: the credentials posted
    to [/login], the user data posted to [/register], or a GET of [/user/me]
    with a bearer token, all three at [BACKEND_URL]. *)
Theorem requests_to_backend (cfg : option string)
    (storage0 : gmap string string) (path0 : string) (sys : system)
    (rq : request) :
  reachable cfg storage0 path0 sys →
  EFetch rq ∈ log (sys_state sys) →
  provider_request cfg rq.
Proof.
  intros Hsys Hrq.
  assert (Hlog : Forall (to_backend cfg) (log (sys_state sys))).
  { apply (reachable_invariant cfg (to_backend cfg)
             (λ s, Forall (to_backend cfg) (log s))) with storage0 path0;
      [| |apply exported_to_backend|apply mount_to_backend|constructor|done].
    - intros a s Ha Hs. unfold perform, record. cbn.
      apply Forall_app. split; [by destruct a|]. by constructor.
    - intros rq' s Ha Hs. cbn. apply Forall_app. split; [done|]. by constructor. }
  by apply (proj1 (Forall_forall _ _) Hlog (EFetch rq)).
Qed.

Lemma requests_to_backend_witness :
  provider_request None (user_me_request None (VStr "tok1")).
Proof.
  apply (requests_to_backend None ∅ "/" stranded
           (user_me_request None (VStr "tok1"))).
  - apply (play_reachable _ _ _ _ _ failed_resolution_plays).
  - vm_compute. do 3 right. left.
Defined.

(** X13: whatever is called and however the promises settle, every key of
    the storage other than "token" holds what it held when the provider
    mounted. *)
Theorem other_keys_untouched (cfg : option string)
    (storage0 : gmap string string) (path0 : string) (sys : system)
    (key : string) :
  reachable cfg storage0 path0 sys →
  key ≠ "token" →
  storage (sys_state sys) !! key = storage0 !! key.
Proof.
  intros Hsys Hkey.
  apply (reachable_invariant cfg token_only
           (λ s, storage s !! key = storage0 !! key)) with storage0 path0;
    [| |apply exported_token_only|apply mount_token_only|done|done].
  - intros a s Ha Hs. destruct a; cbn in *; subst; try done.
    + by rewrite lookup_insert_ne.
    + by rewrite lookup_delete_ne.
  - done.
Qed.

Lemma other_keys_untouched_witness :
  storage (sys_state stranded) !! "theme" = (∅ : gmap string string) !! "theme".
Proof.
  apply (other_keys_untouched None ∅ "/" stranded "theme").
  - apply (play_reachable _ _ _ _ _ failed_resolution_plays).
  - discriminate.
Defined.

(** X14: whatever is called and however the promises settle, the location
    is the one the provider mounted at or one of "/", "/profile" and
    "/success". *)
Theorem locations_visited (cfg : option string)
    (storage0 : gmap string string) (path0 : string) (sys : system) :
  reachable cfg storage0 path0 sys →
  location (sys_state sys) ∈ path0 :: routes.
Proof.
  intros Hsys.
  apply (reachable_invariant cfg to_route
           (λ s, location s ∈ path0 :: routes)) with storage0 path0;
    [| |apply exported_to_route|apply mount_to_route|by constructor|done].
  - intros a s Ha Hs. destruct a; cbn in *; try done. by constructor.
  - done.
Qed.

Lemma locations_visited_witness :
  location (sys_state stranded) ∈ "/" :: routes.
Proof.
  apply (locations_visited None ∅ "/" stranded).
  apply (play_reachable _ _ _ _ _ failed_resolution_plays).
Defined.
